(** * @reach/radio-group: selection, roving tab stop and keyboard navigation

    A shallow embedding of [packages/radio-group/src/index.tsx]: the
    [RadioGroup] controller ([isControlled], [onSelect], the context's
    [selectedIndex], the mode warnings) and the [Radio] item ([isInitial],
    [isSelected], the rendered attributes, [handleClick], [handleKeyDown]),
    the attributes of the rendered container and the [propTypes] validator
    of [index].

    React state is passed explicitly: the hooks of one mounted [RadioGroup]
    are a record, the parts of the page a handler can touch (input focus,
    the caller's [onChange], the developer console) are a second record, and
    a handler is a function from both to an [Outcome], which is either a
    normal return or a thrown [TypeError]. *)

From stdpp Require Import base decidable option numbers list strings gmap.

Local Open Scope Z_scope.

(** ** JavaScript values used by the component *)

(** [number | null | undefined], the run-time values of the [index] prop, of
    [defaultIndex] and of the context's [selectedIndex]. *)
Inductive JsIndex : Type :=
  | Undefined
  | Null
  | Num (n : Z).

#[global] Instance JsIndex_eq_dec : EqDecision JsIndex.
Proof. solve_decision. Defined.

(** [v !== undefined] *)
Definition is_defined (v : JsIndex) : bool :=
  match v with Undefined => false | _ => true end.

(** [v === null] *)
Definition is_null (v : JsIndex) : bool :=
  match v with Null => true | _ => false end.

(** [i === v] for a number [i]: strict equality never holds between a number
    and [null] or [undefined]. *)
Definition strict_eq (i : Z) (v : JsIndex) : bool :=
  match v with Num n => bool_decide (i = n) | _ => false end.

(** Truthiness of a string: every string but the empty one. *)
Definition truthy (s : string) : bool :=
  match s with EmptyString => false | String _ _ => true end.

(** [xs[i]] for a number [i]: [undefined] (here [None]) outside the array. *)
Definition js_nth {A : Type} (xs : list A) (i : Z) : option A :=
  if bool_decide (0 ≤ i) then xs !! Z.to_nat i else None.

(** [xs.findIndex(p)]: the position of the first match, [-1] without one. *)
Fixpoint findIndex {A : Type} (p : A → bool) (xs : list A) : Z :=
  match xs with
  | [] => -1
  | x :: xs' =>
      if p x then 0
      else let r := findIndex p xs' in if bool_decide (r = -1) then -1 else r + 1
  end.

(** A DOM node, by identity. *)
Definition Element : Type := nat.

(** What a handler can do: return, or throw having got as far as [a]. *)
Inductive Exception : Type :=
  | TypeError.

Inductive Outcome (A : Type) : Type :=
  | Returns (a : A)
  | Throws (e : Exception) (a : A).
Arguments Returns {A} a.
Arguments Throws {A} e a.

(** The state in which a handler stopped, however it stopped. *)
Definition reached {A : Type} (o : Outcome A) : A :=
  match o with Returns a => a | Throws _ a => a end.

Definition returned {A : Type} (o : Outcome A) : bool :=
  match o with Returns _ => true | Throws _ _ => false end.

(** ** The page around the component *)

Record World : Type := mkWorld {
  (** the element holding input focus *)
  focused : option Element;
  (** the arguments the caller's [onChange] has been invoked with, oldest first *)
  changes : list Z;
  (** the messages written to the developer console, oldest first *)
  console : list string
}.

Definition set_focused (e : Element) (w : World) : World :=
  mkWorld (Some e) (changes w) (console w).

Definition log_change (i : Z) (w : World) : World :=
  mkWorld (focused w) (changes w ++ [i]) (console w).

Definition log_warning (msg : string) (w : World) : World :=
  mkWorld (focused w) (changes w) (console w ++ [msg]).

(** ** @reach/descendants and @reach/utils *)

Module Descendants.

(** [Descendant<HTMLElement, DescendantProps>]: a registered Member. The
    optional [disabled] is only ever read as [!radio.disabled], so
    [undefined] and [false] are one value here. *)
Record Descendant : Type := mkDescendant {
  element : option Element;
  index : Z;
  disabled : bool
}.

(** Modelled from the spec: the ordered-registration service
    ([useDescendants] and [useDescendant] of @reach/descendants), which is
    not part of this package. Ordinals are contiguous, zero-based and follow
    document order: the Member registered at position [i] carries
    [index = i]. *)
Definition register (members : list (option Element * bool)) : list Descendant :=
  imap (λ i m, mkDescendant (fst m) (Z.of_nat i) (snd m)) members.

Definition ordinals_ok (descendants : list Descendant) : Prop :=
  ∀ (i : nat) d, descendants !! i = Some d → index d = Z.of_nat i.

(** The keys the navigation helper reacts to, and every other key. *)
Inductive Key : Type :=
  | Space
  | ArrowDown
  | ArrowUp
  | ArrowLeft
  | ArrowRight
  | Home
  | KeyEnd
  | OtherKey.

Inductive Move : Type :=
  | Next
  | Previous
  | First
  | Last.

(** Modelled from the spec: the key bindings of the roving-keyboard
    navigation helper ([useDescendantKeyDown] of @reach/descendants, not
    part of this package) for [orientation: "both"]: next and previous on
    both axes, first and last. *)
Definition move_of_key (k : Key) : option Move :=
  match k with
  | ArrowDown | ArrowRight => Some Next
  | ArrowUp | ArrowLeft => Some Previous
  | Home => Some First
  | KeyEnd => Some Last
  | Space | OtherKey => None
  end.

(** Modelled from the spec: the target computation of the
    roving-keyboard navigation helper ([useDescendantKeyDown] of
    @reach/descendants, not part of this package). It works on the ordered
    subset of the Members that pass [filter]; movement wraps at the ends
    (last to first, first to last); without a Member that passes there is
    no target. The spec does not say where movement starts when
    [currentIndex] is not the ordinal of a Member that passes: the position
    is then [-1], as [findIndex] gives it, and the same arithmetic (with
    the remainder of JavaScript's [%], [Z.rem]) applies. *)
Definition target (filter : Descendant → bool) (descendants : list Descendant)
    (currentIndex : JsIndex) (m : Move) : option Descendant :=
  let selectable := List.filter filter descendants in
  let len := Z.of_nat (length selectable) in
  let pos := findIndex (λ d, strict_eq (index d) currentIndex) selectable in
  match m with
  | First => selectable !! 0%nat
  | Last => js_nth selectable (len - 1)
  | Next =>
      if bool_decide (pos = len - 1) then selectable !! 0%nat
      else js_nth selectable (Z.rem (pos + 1) len)
  | Previous =>
      if bool_decide (pos = 0) then js_nth selectable (len - 1)
      else js_nth selectable (Z.rem (pos - 1 + len) len)
  end.

(** With [key: "index"] the callback receives the target's ordinal. *)
Definition useDescendantKeyDown (filter : Descendant → bool)
    (descendants : list Descendant) (currentIndex : JsIndex) (k : Key) : option Z :=
  m ← move_of_key k; index <$> target filter descendants currentIndex m.

End Descendants.

Module Utils.

(** Modelled from the spec: [warning] of @reach/utils, not part of this
    package: a developer-visible, non-fatal diagnostic, written when the
    condition it is given is false. *)
Definition warning (condition : bool) (msg : string) (w : World) : World :=
  if condition then w else log_warning msg w.

(** Modelled from the spec: [wrapEvent] of @reach/utils, not part of this
    package: the caller-supplied handler runs first, the internal handler
    after it, and the internal one does not suppress the external one. A
    caller's handler is any change of the page. *)
Definition wrapEvent {A : Type} (theirHandler : option (World → World))
    (ourHandler : World → Outcome (A * World)) (w : World) : Outcome (A * World) :=
  ourHandler (default id theirHandler w).

End Utils.

(** ** RadioGroup: the Group controller *)

Module RadioGroup.
Import Descendants.

(** [RadioGroupProps], as far as selection goes. An omitted prop is
    [Undefined]; the optional [onChange] is opaque, so the record says
    whether it is supplied and [changes] records its invocations. *)
Record RadioGroupProps : Type := mkProps {
  index : JsIndex;
  defaultIndex : JsIndex;
  onChange : bool
}.

(** The hooks of one mounted [RadioGroup]: the [useRef] holding
    [isControlled], the registry's [descendants] and the [useState] holding
    [internalSelectedIndex]. *)
Record Hooks : Type := mkHooks {
  isControlled : bool;
  descendants : list Descendant;
  internalSelectedIndex : JsIndex
}.

(** [const wasControlled = controlledIndex !== undefined] *)
Definition wasControlled (props : RadioGroupProps) : bool :=
  is_defined (index props).

(** The first render: [useRef(wasControlled)] and [useState(defaultIndex)]
    take their initial values, [defaultIndex = null] being the default of
    an omitted prop. *)
Definition mount (props : RadioGroupProps) (descs : list Descendant) : Hooks :=
  mkHooks (wasControlled props) descs
    (match defaultIndex props with Undefined => Null | v => v end).

(** [setInternalSelectedIndex(index)] *)
Definition setInternalSelectedIndex (v : JsIndex) (h : Hooks) : Hooks :=
  mkHooks (isControlled h) (descendants h) v.

(** [setDescendants], called by the registry when membership changes. *)
Definition setDescendants (descs : list Descendant) (h : Hooks) : Hooks :=
  mkHooks (isControlled h) descs (internalSelectedIndex h).

(** [function onSelect(index)]: the optional [onChange], then the focus
    move, where reading [.element] of a missing descendant throws, then
    the state update of an uncontrolled Group. *)
Definition onSelect (props : RadioGroupProps) (h : Hooks) (i : Z) (w : World)
    : Outcome (Hooks * World) :=
  let w1 := if onChange props then log_change i w else w in
  match js_nth (descendants h) i with
  | None => Throws TypeError (h, w1)
  | Some d =>
      let w2 := match element d with Some e => set_focused e w1 | None => w1 end in
      Returns (if negb (isControlled h) then setInternalSelectedIndex (Num i) h else h, w2)
  end.

(** [context.selectedIndex]: [isControlled ? controlledIndex! : internalSelectedIndex];
    the [!] is a type assertion and does nothing at run time. *)
Definition selectedIndex (props : RadioGroupProps) (h : Hooks) : JsIndex :=
  if isControlled h then index props else internalSelectedIndex h.

Definition uncontrolled_to_controlled : string :=
  "RadioGroup is changing from uncontrolled to controlled. RadioGroup should not switch from controlled to uncontrolled (or vice versa). Decide between using a controlled or uncontrolled RadioGroup for the lifetime of the component. Check the `index` prop being passed in.".

Definition controlled_to_uncontrolled : string :=
  "RadioGroup is changing from controlled to uncontrolled. RadioGroup should not switch from uncontrolled to controlled (or vice versa). Decide between using a controlled or uncontrolled RadioGroup for the lifetime of the component. Check the `index` prop being passed in.".

(** The [if (__DEV__)] block of a render; [dev] is the build's [__DEV__]. *)
Definition mode_warnings (dev : bool) (props : RadioGroupProps) (h : Hooks)
    (w : World) : World :=
  if dev then
    let w1 :=
      Utils.warning (negb (negb (isControlled h) && wasControlled props))
        uncontrolled_to_controlled w in
    Utils.warning (negb (isControlled h && negb (wasControlled props)))
      controlled_to_uncontrolled w1
  else w.

(** What happens to a mounted Group between two renders: a Member asks for
    a selection (under the props of the render that made the handler), or
    the registry replaces the membership. A selection that throws leaves
    the hooks as they were. *)
Inductive Update : Type :=
  | Select (props : RadioGroupProps) (i : Z) (w : World)
  | Registered (descs : list Descendant).

Definition update (h : Hooks) (u : Update) : Hooks :=
  match u with
  | Select props i w => fst (reached (onSelect props h i w))
  | Registered descs => setDescendants descs h
  end.

(** The hooks after a first render with [props] and any later updates. *)
Definition lifetime (props : RadioGroupProps) (descs : list Descendant)
    (us : list Update) : Hooks :=
  foldl update (mount props descs) us.

End RadioGroup.

(** ** Radio: a Member *)

Module Radio.
Import Descendants.

(** [RadioProps]. A caller's handler is any change of the page. *)
Record RadioProps : Type := mkProps {
  disabled : bool;
  onClick : option (World → World);
  onKeyDown : option (World → World);
  ariaLabel : option string;
  ariaLabelledby : option string;
  ariaDescribedBy : option string
}.

(** [selectedIndex === null && index === 0 && !disabled] *)
Definition isInitial (selectedIndex : JsIndex) (index : Z) (props : RadioProps) : bool :=
  is_null selectedIndex && bool_decide (index = 0) && negb (disabled props).

(** [index === selectedIndex] *)
Definition isSelected (selectedIndex : JsIndex) (index : Z) : bool :=
  strict_eq index selectedIndex.

(** The attributes of the rendered [div role="radio"]. *)
Record Attributes : Type := mkAttributes {
  aria_checked : bool;
  aria_label : option string;
  aria_labelledby : option string;
  aria_describedby : option string;
  data_disabled : bool;
  tabIndex : Z
}.

Definition render (selectedIndex : JsIndex) (index : Z) (props : RadioProps) : Attributes :=
  {| aria_checked := isSelected selectedIndex index;
     aria_label := ariaLabel props;
     aria_labelledby :=
       match ariaLabel props with
       | Some s => if truthy s then None else ariaLabelledby props
       | None => ariaLabelledby props
       end;
     aria_describedby := ariaDescribedBy props;
     data_disabled := disabled props;
     tabIndex :=
       if isInitial selectedIndex index props then 0
       else if strict_eq index selectedIndex then 0 else -1 |}.

(** The ordinal the navigation [callback] hands to [onSelect]:
    [isInitial ? index + 1 : index], for the target ordinal [index] it is
    called with. *)
Definition callback_index (isInitial : bool) (index : Z) : Z :=
  if isInitial then index + 1 else index.

(** [filter: (radio) => !radio.disabled] *)
Definition filter (radio : Descendant) : bool :=
  negb (Descendants.disabled radio).

Section Handlers.
(** The Group the Member belongs to, as of the render that created the
    handlers, and the Member's own ordinal and props. *)
Variable group : RadioGroup.RadioGroupProps.
Variable h : RadioGroup.Hooks.
Variable index : Z.
Variable props : RadioProps.

Let selectedIndex : JsIndex := RadioGroup.selectedIndex group h.

(** The ordinal [descendantKeyDown] asks [onSelect] for, if the key is a
    navigation key with a target. *)
Definition keyDown_request (k : Key) : option Z :=
  callback_index (isInitial selectedIndex index props) <$>
    useDescendantKeyDown filter (RadioGroup.descendants h) selectedIndex k.

Definition descendantKeyDown (k : Key) (h' : RadioGroup.Hooks) (w : World)
    : Outcome (RadioGroup.Hooks * World) :=
  match keyDown_request k with
  | Some i => RadioGroup.onSelect group h' i w
  | None => Returns (h', w)
  end.

(** [function handleClick() { onSelect(index); }] *)
Definition handleClick (w : World) : Outcome (RadioGroup.Hooks * World) :=
  RadioGroup.onSelect group h index w.

(** [function handleKeyDown(e)]: the space key on a Member that is not
    selected, then the navigation helper. *)
Definition handleKeyDown (k : Key) (w : World) : Outcome (RadioGroup.Hooks * World) :=
  let first :=
    match k with
    | Space =>
        if negb (isSelected selectedIndex index) then
          RadioGroup.onSelect group h index w
        else Returns (h, w)
    | _ => Returns (h, w)
    end in
  match first with
  | Returns (h', w') => descendantKeyDown k h' w'
  | Throws e a => Throws e a
  end.

(** [onClick={wrapEvent(onClick, handleClick)}] *)
Definition click (w : World) : Outcome (RadioGroup.Hooks * World) :=
  Utils.wrapEvent (onClick props) handleClick w.

(** [onKeyDown={wrapEvent(onKeyDown, handleKeyDown)}] *)
Definition keyDown (k : Key) (w : World) : Outcome (RadioGroup.Hooks * World) :=
  Utils.wrapEvent (onKeyDown props) (handleKeyDown k) w.
End Handlers.

(** The Members of one Group as rendered together, each with the ordinal
    of its position (see [Descendants.register]). *)
Definition render_all (selectedIndex : JsIndex) (members : list RadioProps)
    : list Attributes :=
  imap (λ i props, render selectedIndex (Z.of_nat i) props) members.

(** The Members from ordinal [k] on, as [render_all] renders them from 0 on. *)
Definition render_from (selectedIndex : JsIndex) (k : nat)
    (members : list RadioProps) : list Attributes :=
  imap (λ i props, render selectedIndex (Z.of_nat (k + i)) props) members.

(** The registry entries of these Members, with their elements. *)
Definition registered (members : list (Element * RadioProps)) : list Descendant :=
  register ((λ m, (Some (fst m), disabled (snd m))) <$> members).

End Radio.

(** ** Groups used as concrete inputs *)

Module Examples.
Import Descendants.

Definition page : World := mkWorld None [] [].

Definition plain : Radio.RadioProps := Radio.mkProps false None None None None None.
Definition greyed : Radio.RadioProps := Radio.mkProps true None None None None None.

(** The Group of the "Basic" story: three enabled Members, no [index], no
    [defaultIndex]; here with an [onChange]. *)
Definition crusts : list Descendant :=
  Radio.registered [(10%nat, plain); (11%nat, plain); (12%nat, plain)].

Definition uncontrolled : RadioGroup.RadioGroupProps :=
  RadioGroup.mkProps Undefined Undefined true.

Definition controlled (i : Z) : RadioGroup.RadioGroupProps :=
  RadioGroup.mkProps (Num i) Undefined true.

(** A Group with one enabled Member. *)
Definition single : list Descendant :=
  Radio.registered [(10%nat, plain)].

(** Enabled, disabled, enabled, disabled. *)
Definition mixed : list Descendant :=
  Radio.registered [(10%nat, plain); (11%nat, greyed); (12%nat, plain); (13%nat, greyed)].

(** Three enabled Members and a disabled last one. *)
Definition tail_greyed : list Descendant :=
  Radio.registered [(10%nat, plain); (11%nat, plain); (12%nat, plain); (13%nat, greyed)].

End Examples.

(** ** RadioGroup: the rendered container *)

Module GroupView.

(** The props of a [RadioGroup] whose values are strings are a map from
    their names: the pass-through HTML attributes and the three [aria-*]
    props. [set_attribute] is one JSX attribute written after a spread: it
    replaces what it finds, and with [undefined] nothing is rendered. *)
Definition set_attribute (name : string) (value : option string)
    (attrs : gmap string string) : gmap string string :=
  match value with
  | Some v => <[name := v]> attrs
  | None => delete name attrs
  end.

(** [...props]: what is left of the props after the destructuring in the
    parameter list of [RadioGroup]. *)
Definition rest (props : gmap string string) : gmap string string :=
  delete "children" (delete "index" (delete "defaultIndex" (delete "onChange"
    (delete "aria-label" (delete "aria-labelledby"
       (delete "aria-describedby" props)))))).

(** The attributes of the rendered [div]: [{...props}] first, then the
    attributes the component writes itself, which replace what they find; an
    attribute whose value is [undefined] is not rendered. *)
Definition attributes (props : gmap string string) : gmap string string :=
  let ariaLabel := props !! "aria-label" in
  let ariaLabelledby := props !! "aria-labelledby" in
  let ariaDescribedBy := props !! "aria-describedby" in
  set_attribute "data-reach-radio-group" (Some EmptyString)
    (set_attribute "aria-describedby" ariaDescribedBy
       (set_attribute "aria-labelledby"
          (match ariaLabel with
           | Some s => if truthy s then None else ariaLabelledby
           | None => ariaLabelledby
           end)
          (set_attribute "aria-label" ariaLabel
             (set_attribute "role" (Some "radiogroup") (rest props))))).

(** The attribute names [RadioGroup] writes or consumes itself. *)
Definition own_names : list string :=
  ["children"; "index"; "defaultIndex"; "onChange"; "aria-label";
   "aria-labelledby"; "aria-describedby"; "role"; "data-reach-radio-group"].

End GroupView.

(** ** RadioGroup.propTypes *)

Module PropTypes.

(** A prop value as the validator of [index] may find it: nothing, a
    number, an array, or anything else with its [typeof]. *)
#[warnings="-register-all"]
Inductive JsValue : Type :=
  | VUndefined
  | VNull
  | VNumber (n : Z)
  | VNaN
  | VArray (items : list JsValue)
  | VOther (type : string).

(** [v != null] *)
Definition not_nullish (v : JsValue) : bool :=
  match v with VUndefined | VNull => false | _ => true end.

(** [Array.isArray(v)] *)
Definition isArray (v : JsValue) : bool :=
  match v with VArray _ => true | _ => false end.

(** [typeof v] *)
Definition typeof (v : JsValue) : string :=
  match v with
  | VUndefined => "undefined"
  | VNull | VArray _ => "object"
  | VNumber _ | VNaN => "number"
  | VOther type => type
  end.

(** The props as the validator reads them: [index] is [props[name]] for the
    prop it validates; [onChange] says that [props.onChange == null] is
    false; [readOnly] is the truthiness of [props.readOnly]; [defaultIndex]
    says that [props.defaultIndex != null]. *)
Record Props : Type := mkProps {
  index : JsValue;
  onChange : bool;
  readOnly : bool;
  defaultIndex : bool
}.

(** The four errors the validator can return; the last one is the message
    built from [propName], [compName] and the received type. *)
Inductive PropError : Type :=
  | IndexWithoutOnChange
  | IndexWithDefaultIndex
  | NonNumericArray
  | InvalidProp (propName compName received : string).

Section Validator.
(** [isNumber] of @reach/utils, which is not part of this package. *)
Variable isNumber : JsValue → bool.

(** [RadioGroup.propTypes.index]; [null] is [None]. *)
Definition index_validator (props : Props) (compName propName : string)
    : option PropError :=
  let val := index props in
  if not_nullish val && negb (onChange props) && negb (readOnly props) then
    Some IndexWithoutOnChange
  else if not_nullish val && defaultIndex props then
    Some IndexWithDefaultIndex
  else
    match val with
    | VArray items =>
        if existsb (λ i, negb (isNumber i)) items then Some NonNumericArray
        else None
    | _ =>
        if not_nullish val && negb (isNumber val) then
          Some (InvalidProp propName compName
                  (if isArray val then "array" else typeof val))
        else None
    end.
End Validator.

(** An [isNumber]: the numbers other than [NaN]. *)
Definition finite_number (v : JsValue) : bool :=
  match v with VNumber _ => true | _ => false end.

End PropTypes.

(** * Properties *)

Import Descendants.

(** ** Array access *)

Lemma js_nth_Some {A : Type} (xs : list A) (i : Z) (x : A) :
  js_nth xs i = Some x ↔ 0 ≤ i ∧ xs !! Z.to_nat i = Some x.
Proof.
  unfold js_nth. case_bool_decide as Hi.
  - split; [by intros ->|by intros [_ ->]].
  - split; [done|by intros [? _]].
Qed.

Lemma js_nth_in_range {A : Type} (xs : list A) (i : Z) :
  0 ≤ i < Z.of_nat (length xs) → is_Some (js_nth xs i).
Proof.
  intros [Hlo Hhi]. unfold js_nth. rewrite bool_decide_eq_true_2 by done.
  apply lookup_lt_is_Some. lia.
Qed.

Lemma js_nth_out_of_range {A : Type} (xs : list A) (i : Z) :
  js_nth xs i = None ↔ i < 0 ∨ Z.of_nat (length xs) ≤ i.
Proof.
  unfold js_nth. case_bool_decide as Hi.
  - rewrite lookup_ge_None. lia.
  - split; [lia | done].
Qed.

Lemma js_nth_of_nat {A : Type} (xs : list A) (n : nat) :
  js_nth xs (Z.of_nat n) = xs !! n.
Proof.
  unfold js_nth. rewrite bool_decide_eq_true_2 by lia. by rewrite Nat2Z.id.
Qed.

(** ** The Group controller *)

Lemma onSelect_throws (props : RadioGroup.RadioGroupProps) (h : RadioGroup.Hooks)
    (i : Z) (w : World) :
  js_nth (RadioGroup.descendants h) i = None →
  RadioGroup.onSelect props h i w =
    Throws TypeError (h, if RadioGroup.onChange props then log_change i w else w).
Proof. intros Hnone. unfold RadioGroup.onSelect. by rewrite Hnone. Qed.

Lemma onSelect_returns (props : RadioGroup.RadioGroupProps) (h : RadioGroup.Hooks)
    (i : Z) (w : World) (d : Descendant) :
  js_nth (RadioGroup.descendants h) i = Some d →
  RadioGroup.onSelect props h i w =
    Returns
      (if RadioGroup.isControlled h then h
       else RadioGroup.setInternalSelectedIndex (Num i) h,
       let w1 := if RadioGroup.onChange props then log_change i w else w in
       match element d with Some e => set_focused e w1 | None => w1 end).
Proof.
  intros Hd. unfold RadioGroup.onSelect. rewrite Hd.
  by destruct (RadioGroup.isControlled h).
Qed.

Lemma onSelect_isControlled (props : RadioGroup.RadioGroupProps)
    (h : RadioGroup.Hooks) (i : Z) (w : World) :
  RadioGroup.isControlled (fst (reached (RadioGroup.onSelect props h i w))) =
    RadioGroup.isControlled h.
Proof.
  unfold RadioGroup.onSelect.
  destruct (js_nth _ _); [|done].
  by destruct h as [[] ? ?].
Qed.

Lemma lifetime_snoc (props : RadioGroup.RadioGroupProps) (descs : list Descendant)
    (us : list RadioGroup.Update) (u : RadioGroup.Update) :
  RadioGroup.lifetime props descs (us ++ [u]) =
    RadioGroup.update (RadioGroup.lifetime props descs us) u.
Proof. unfold RadioGroup.lifetime. by rewrite foldl_app. Qed.

Lemma lifetime_isControlled (props : RadioGroup.RadioGroupProps)
    (descs : list Descendant) (us : list RadioGroup.Update) :
  RadioGroup.isControlled (RadioGroup.lifetime props descs us) =
    RadioGroup.wasControlled props.
Proof.
  induction us as [|u us IH] using rev_ind; [done|].
  rewrite lifetime_snoc. destruct u as [props' i w|descs']; simpl.
  - by rewrite onSelect_isControlled.
  - done.
Qed.

(** C4. For an index inside the membership, [onSelect] returns; the caller's
    [onChange], when supplied, has been invoked once more, with that index;
    an uncontrolled Group's [selectedIndex] is then that index; a controlled
    Group's [selectedIndex] is still the supplied [index] prop, and follows
    only the [index] of the props it is rendered with. *)
Theorem onSelect_in_range (props : RadioGroup.RadioGroupProps)
    (h : RadioGroup.Hooks) (i : Z) (w : World) :
  0 ≤ i < Z.of_nat (length (RadioGroup.descendants h)) →
  ∃ h' w',
    RadioGroup.onSelect props h i w = Returns (h', w')
    ∧ changes w' =
        (if RadioGroup.onChange props then changes w ++ [i] else changes w)
    ∧ (RadioGroup.isControlled h = false →
         RadioGroup.internalSelectedIndex h' = Num i
         ∧ RadioGroup.selectedIndex props h' = Num i)
    ∧ (RadioGroup.isControlled h = true →
         RadioGroup.selectedIndex props h' = RadioGroup.selectedIndex props h
         ∧ ∀ props', RadioGroup.selectedIndex props' h' = RadioGroup.index props').
Proof.
  intros Hrange. destruct (js_nth_in_range _ _ Hrange) as [d Hd].
  eexists _, _. split; [by apply onSelect_returns with (d := d)|].
  destruct h as [ctl descs internal]; simpl in *.
  split.
  - destruct (RadioGroup.onChange props), (element d); done.
  - split; intros ->; [done|]. split; [done|]. intros props'. done.
Qed.

Lemma onSelect_in_range_witness :
  ∃ h' w',
    RadioGroup.onSelect (Examples.controlled 1)
      (RadioGroup.mount (Examples.controlled 1) Examples.crusts) 0 Examples.page
      = Returns (h', w')
    ∧ changes w' = [0]
    ∧ (true = false →
         RadioGroup.internalSelectedIndex h' = Num 0
         ∧ RadioGroup.selectedIndex (Examples.controlled 1) h' = Num 0)
    ∧ (true = true →
         RadioGroup.selectedIndex (Examples.controlled 1) h' = Num 1
         ∧ ∀ props', RadioGroup.selectedIndex props' h' = RadioGroup.index props').
Proof.
  apply (onSelect_in_range (Examples.controlled 1)
           (RadioGroup.mount (Examples.controlled 1) Examples.crusts) 0 Examples.page).
  cbn. lia.
Defined.

(** C10. Whenever [onSelect] is called with the index of a registered Member
    that has an element, it returns and input focus is on that element,
    whatever the mode; in a controlled Group this happens although
    [selectedIndex] stays as it was. *)
Theorem onSelect_moves_focus (props : RadioGroup.RadioGroupProps)
    (h : RadioGroup.Hooks) (i : Z) (w : World) (d : Descendant) (e : Element) :
  js_nth (RadioGroup.descendants h) i = Some d →
  element d = Some e →
  ∃ h' w',
    RadioGroup.onSelect props h i w = Returns (h', w')
    ∧ focused w' = Some e
    ∧ (RadioGroup.isControlled h = true →
         RadioGroup.selectedIndex props h' = RadioGroup.selectedIndex props h).
Proof.
  intros Hd He. eexists _, _. split; [by apply onSelect_returns with (d := d)|].
  rewrite He. split.
  - by destruct (RadioGroup.onChange props).
  - by intros ->.
Qed.

Lemma onSelect_moves_focus_witness :
  ∃ h' w',
    RadioGroup.onSelect (Examples.controlled 1)
      (RadioGroup.mount (Examples.controlled 1) Examples.crusts) 0 Examples.page
      = Returns (h', w')
    ∧ focused w' = Some 10%nat
    ∧ (true = true → RadioGroup.selectedIndex (Examples.controlled 1) h' = Num 1).
Proof.
  apply (onSelect_moves_focus (Examples.controlled 1)
           (RadioGroup.mount (Examples.controlled 1) Examples.crusts) 0 Examples.page
           (mkDescendant (Some 10%nat) 0 false) 10%nat); reflexivity.
Defined.

(** A Member without an element is selected without a focus move. *)
Lemma onSelect_without_element (props : RadioGroup.RadioGroupProps)
    (h : RadioGroup.Hooks) (i : Z) (w : World) (d : Descendant) :
  js_nth (RadioGroup.descendants h) i = Some d →
  element d = None →
  focused (snd (reached (RadioGroup.onSelect props h i w))) = focused w.
Proof.
  intros Hd He. rewrite (onSelect_returns _ _ _ _ _ Hd), He. simpl.
  by destruct (RadioGroup.onChange props).
Qed.

(** C1. In the Group of the "Basic" story (three enabled Members, nothing
    selected) [onSelect(3)] names no Member. It is not ignored: [onChange]
    is invoked with 3 and the call then throws a [TypeError] on
    [descendants[3].element]. The End key on the first Member issues exactly
    this call, the last Member being the target and [isInitial] adding one;
    so does an arrow key in a Group of a single Member, with [onSelect(1)]. *)
Theorem onSelect_outside_membership_throws :
  let h := RadioGroup.mount Examples.uncontrolled Examples.crusts in
  let h1 := RadioGroup.mount Examples.uncontrolled Examples.single in
  js_nth (RadioGroup.descendants h) 3 = None
  ∧ RadioGroup.onSelect Examples.uncontrolled h 3 Examples.page
      = Throws TypeError (h, log_change 3 Examples.page)
  ∧ Radio.keyDown_request Examples.uncontrolled h 0 Examples.plain KeyEnd = Some 3
  ∧ Radio.keyDown Examples.uncontrolled h 0 Examples.plain KeyEnd Examples.page
      = Throws TypeError (h, log_change 3 Examples.page)
  ∧ Radio.keyDown Examples.uncontrolled h1 0 Examples.plain ArrowDown Examples.page
      = Throws TypeError (h1, log_change 1 Examples.page).
Proof. repeat split; reflexivity. Qed.

(** C2. In an uncontrolled Group with nothing selected, a click on the
    disabled Member at ordinal 1 calls [onSelect(1)]: [onChange] is invoked
    with 1, focus moves to that Member and [selectedIndex] becomes 1. *)
Theorem click_on_disabled_selects :
  let h := RadioGroup.mount Examples.uncontrolled Examples.mixed in
  Radio.disabled Examples.greyed = true
  ∧ js_nth (RadioGroup.descendants h) 1 = Some (mkDescendant (Some 11%nat) 1 true)
  ∧ RadioGroup.selectedIndex Examples.uncontrolled h = Null
  ∧ ∃ h' w',
      Radio.click Examples.uncontrolled h 1 Examples.greyed Examples.page
        = Returns (h', w')
      ∧ RadioGroup.selectedIndex Examples.uncontrolled h' = Num 1
      ∧ changes w' = [1]
      ∧ focused w' = Some 11%nat.
Proof. repeat split. eexists _, _. repeat split; reflexivity. Qed.

(** A click calls [onSelect] with the Member's own ordinal, enabled or not,
    after the caller's handler. *)
Lemma click_selects_own_ordinal (group : RadioGroup.RadioGroupProps)
    (h : RadioGroup.Hooks) (index : Z) (props : Radio.RadioProps) (w : World) :
  Radio.click group h index props w =
    RadioGroup.onSelect group h index (default id (Radio.onClick props) w).
Proof. reflexivity. Qed.

(** ** Control mode *)

Lemma mode_warnings_same_mode (props : RadioGroup.RadioGroupProps)
    (h : RadioGroup.Hooks) (dev : bool) (w : World) :
  RadioGroup.wasControlled props = RadioGroup.isControlled h →
  RadioGroup.mode_warnings dev props h w = w.
Proof.
  intros Hsame. unfold RadioGroup.mode_warnings. rewrite Hsame.
  by destruct dev, (RadioGroup.isControlled h).
Qed.

(** The diagnostics exist in development builds only. *)
Lemma mode_warnings_production (props : RadioGroup.RadioGroupProps)
    (h : RadioGroup.Hooks) (w : World) :
  RadioGroup.mode_warnings false props h w = w.
Proof. reflexivity. Qed.

(** C8. The mode is the one of the first render for the Group's whole
    lifetime. A later render (of a development build) whose [index] prop is
    defined where the first one's was not, or the other way round, writes
    the matching warning to the console and nothing else happens; the Group
    goes on in its first mode: one that started uncontrolled reads its own
    stored selection, whatever [index] is supplied, and [onSelect] keeps
    updating it; one that started controlled reads the [index] prop and
    [onSelect] leaves the hooks alone. *)
Theorem mode_fixed_at_first_render (props0 : RadioGroup.RadioGroupProps)
    (descs : list Descendant) (us : list RadioGroup.Update)
    (props1 : RadioGroup.RadioGroupProps) (w : World) :
  let h := RadioGroup.lifetime props0 descs us in
  RadioGroup.isControlled h = RadioGroup.wasControlled props0
  ∧ (RadioGroup.wasControlled props0 = false →
       (RadioGroup.wasControlled props1 = true →
          RadioGroup.mode_warnings true props1 h w =
            log_warning RadioGroup.uncontrolled_to_controlled w)
       ∧ RadioGroup.selectedIndex props1 h = RadioGroup.internalSelectedIndex h
       ∧ ∀ i w', is_Some (js_nth (RadioGroup.descendants h) i) →
           fst (reached (RadioGroup.onSelect props1 h i w')) =
             RadioGroup.setInternalSelectedIndex (Num i) h)
  ∧ (RadioGroup.wasControlled props0 = true →
       (RadioGroup.wasControlled props1 = false →
          RadioGroup.mode_warnings true props1 h w =
            log_warning RadioGroup.controlled_to_uncontrolled w)
       ∧ RadioGroup.selectedIndex props1 h = RadioGroup.index props1
       ∧ ∀ i w', fst (reached (RadioGroup.onSelect props1 h i w')) = h).
Proof.
  intros h. pose proof (lifetime_isControlled props0 descs us) as Hmode.
  fold h in Hmode. split; [done|].
  unfold RadioGroup.selectedIndex, RadioGroup.mode_warnings, RadioGroup.onSelect.
  split; intros H0; rewrite H0 in Hmode; rewrite Hmode.
  - split; [by intros ->|]. split; [done|].
    intros i w' [d Hd]. by rewrite Hd.
  - split; [by intros ->|]. split; [done|].
    intros i w'. by destruct (js_nth _ _).
Qed.

Lemma mode_fixed_at_first_render_witness :
  let h := RadioGroup.lifetime Examples.uncontrolled Examples.crusts
             [RadioGroup.Select Examples.uncontrolled 2 Examples.page] in
  RadioGroup.mode_warnings true (Examples.controlled 0) h Examples.page =
    log_warning RadioGroup.uncontrolled_to_controlled Examples.page
  ∧ RadioGroup.selectedIndex (Examples.controlled 0) h = Num 2
  ∧ fst (reached (RadioGroup.onSelect (Examples.controlled 0) h 1 Examples.page)) =
      RadioGroup.setInternalSelectedIndex (Num 1) h.
Proof.
  intros h.
  destruct (mode_fixed_at_first_render Examples.uncontrolled Examples.crusts
              [RadioGroup.Select Examples.uncontrolled 2 Examples.page]
              (Examples.controlled 0) Examples.page) as (_ & Hunc & _).
  destruct (Hunc eq_refl) as (Hwarn & Hsel & Hop).
  split; [exact (Hwarn eq_refl)|]. split; [exact Hsel|].
  apply Hop. by eexists.
Defined.

(** ** The rendered Member *)

Lemma isSelected_spec (selectedIndex : JsIndex) (index : Z) :
  Radio.isSelected selectedIndex index = true ↔ selectedIndex = Num index.
Proof.
  unfold Radio.isSelected, strict_eq. destruct selectedIndex as [| |n]; try done.
  rewrite bool_decide_eq_true. split; [by intros ->|by intros [= ->]].
Qed.

Lemma isInitial_spec (selectedIndex : JsIndex) (index : Z) (props : Radio.RadioProps) :
  Radio.isInitial selectedIndex index props = true
  ↔ selectedIndex = Null ∧ index = 0 ∧ Radio.disabled props = false.
Proof.
  unfold Radio.isInitial. rewrite !andb_true_iff, bool_decide_eq_true, negb_true_iff.
  destruct selectedIndex; simpl; intuition congruence.
Qed.

Lemma render_all_lookup (selectedIndex : JsIndex) (members : list Radio.RadioProps)
    (i : nat) :
  Radio.render_all selectedIndex members !! i =
    Radio.render selectedIndex (Z.of_nat i) <$> members !! i.
Proof. unfold Radio.render_all. by rewrite list_lookup_imap. Qed.

(** C6. A rendered Member has [tabIndex] 0 exactly if it is selected (its
    ordinal is [selectedIndex]) or initial ([selectedIndex] is [null], its
    ordinal is 0 and it is not disabled), and -1 otherwise. So in a Group
    with [selectedIndex] [null] and an enabled first Member, the first Member
    is the only one with [tabIndex] 0, and no Member is checked. *)
Theorem tabIndex_roving (selectedIndex : JsIndex) (index : Z)
    (props : Radio.RadioProps) (first : Radio.RadioProps)
    (rest : list Radio.RadioProps) :
  let a := Radio.render selectedIndex index props in
  (Radio.tabIndex a = 0
     ↔ selectedIndex = Num index
       ∨ (selectedIndex = Null ∧ index = 0 ∧ Radio.disabled props = false))
  ∧ (Radio.tabIndex a ≠ 0 → Radio.tabIndex a = -1)
  ∧ (Radio.disabled first = false →
       ∀ (i : nat) b, Radio.render_all Null (first :: rest) !! i = Some b →
         (Radio.tabIndex b = 0 ↔ i = 0%nat) ∧ Radio.aria_checked b = false).
Proof.
  intros a.
  assert (Htab : ∀ s ix p,
    Radio.tabIndex (Radio.render s ix p) =
      if Radio.isInitial s ix p || Radio.isSelected s ix then 0 else -1).
  { intros s ix p. simpl. unfold Radio.isSelected.
    by destruct (Radio.isInitial s ix p), (strict_eq ix s). }
  split; [|split].
  - subst a. rewrite Htab, <- isSelected_spec, <- isInitial_spec.
    destruct (Radio.isInitial _ _ _), (Radio.isSelected _ _); simpl;
      intuition congruence.
  - subst a. rewrite Htab. by destruct (_ || _).
  - intros Hfirst i b. rewrite render_all_lookup.
    destruct ((first :: rest) !! i) as [p|] eqn:Hp; [|done].
    intros [= <-]. split; [|done].
    rewrite Htab. unfold Radio.isSelected. simpl. rewrite orb_false_r.
    unfold Radio.isInitial. simpl.
    destruct i as [|i]; simpl in Hp.
    + injection Hp as <-. by rewrite Hfirst.
    + rewrite bool_decide_eq_false_2 by lia. done.
Qed.

Lemma tabIndex_roving_witness :
  (Radio.tabIndex (Radio.render Null 1 Examples.greyed) = 0 ↔ 1%nat = 0%nat)
  ∧ Radio.aria_checked (Radio.render Null 1 Examples.greyed) = false.
Proof.
  apply (proj2 (proj2 (tabIndex_roving Null 0 Examples.plain Examples.plain
                         [Examples.greyed; Examples.plain]))); reflexivity.
Defined.

Lemma render_from_cons (selectedIndex : JsIndex) (k : nat) (p : Radio.RadioProps)
    (members : list Radio.RadioProps) :
  Radio.render_from selectedIndex k (p :: members) =
    Radio.render selectedIndex (Z.of_nat k) p :: Radio.render_from selectedIndex (S k) members.
Proof.
  unfold Radio.render_from. simpl. rewrite Nat.add_0_r. f_equal.
  apply imap_ext. intros i x _. simpl. do 2 f_equal. lia.
Qed.

Lemma none_checked_from (selectedIndex : JsIndex) (k : nat)
    (members : list Radio.RadioProps) :
  (∀ n, selectedIndex = Num n → n < Z.of_nat k) →
  List.filter Radio.aria_checked (Radio.render_from selectedIndex k members) = [].
Proof.
  revert k. induction members as [|p members IH]; intros k Hlt; [done|].
  rewrite render_from_cons. simpl.
  destruct (Radio.isSelected selectedIndex (Z.of_nat k)) eqn:Hsel.
  - apply isSelected_spec in Hsel. specialize (Hlt _ Hsel). lia.
  - apply IH. intros n Hn. specialize (Hlt n Hn). lia.
Qed.

Lemma checked_count_from (selectedIndex : JsIndex) (k : nat)
    (members : list Radio.RadioProps) :
  (length (List.filter Radio.aria_checked (Radio.render_from selectedIndex k members)) ≤ 1)%nat.
Proof.
  revert k. induction members as [|p members IH]; intros k; [simpl; lia|].
  rewrite render_from_cons. simpl.
  destruct (Radio.isSelected selectedIndex (Z.of_nat k)) eqn:Hsel; [|apply IH].
  apply isSelected_spec in Hsel. simpl.
  rewrite none_checked_from; [done|].
  intros n Hn. rewrite Hsel in Hn. injection Hn as <-. lia.
Qed.

(** C7. Among the Members of a Group as rendered together, whatever
    [selectedIndex] is, at most one is checked ([isSelected]). *)
Theorem at_most_one_selected (selectedIndex : JsIndex)
    (members : list Radio.RadioProps) :
  (length (List.filter Radio.aria_checked (Radio.render_all selectedIndex members)) ≤ 1)%nat.
Proof. apply (checked_count_from selectedIndex 0 members). Qed.

(** Two checked Members are one Member. *)
Lemma selected_unique (selectedIndex : JsIndex) (members : list Radio.RadioProps)
    (i j : nat) (a b : Radio.Attributes) :
  Radio.render_all selectedIndex members !! i = Some a →
  Radio.render_all selectedIndex members !! j = Some b →
  Radio.aria_checked a = true → Radio.aria_checked b = true → i = j.
Proof.
  rewrite !render_all_lookup.
  destruct (members !! i) as [p|]; [|done]. destruct (members !! j) as [q|]; [|done].
  intros [= <-] [= <-]. simpl. rewrite !isSelected_spec. intros -> [= Hij]. lia.
Qed.

(** ** Labels *)

(** C9, as stated, fails: with both an [aria-label] and an
    [aria-labelledby], the rendered Member carries the label string and no
    label reference. *)
Lemma labelledby_dropped_when_label_given :
  let props :=
    Radio.mkProps false None None (Some "Thin crust") (Some "pizza-crust") None in
  let a := Radio.render Null 2 props in
  Radio.ariaLabelledby props = Some "pizza-crust"
  ∧ Radio.aria_labelledby a = None
  ∧ Radio.aria_label a = Some "Thin crust".
Proof. repeat split. Qed.

(** C9, amended. The label string comes first: [aria-label] is rendered as
    given; when it is a non-empty string the label reference is not
    rendered, supplied or not; otherwise [aria-labelledby] is rendered as
    given; with neither, the Member carries no label attribute and its
    content is its label. *)
Theorem label_precedence (selectedIndex : JsIndex) (index : Z)
    (props : Radio.RadioProps) :
  let a := Radio.render selectedIndex index props in
  Radio.aria_label a = Radio.ariaLabel props
  ∧ (∀ s, Radio.ariaLabel props = Some s → truthy s = true →
       Radio.aria_labelledby a = None)
  ∧ ((∀ s, Radio.ariaLabel props = Some s → truthy s = false) →
       Radio.aria_labelledby a = Radio.ariaLabelledby props)
  ∧ (Radio.ariaLabel props = None → Radio.ariaLabelledby props = None →
       Radio.aria_label a = None ∧ Radio.aria_labelledby a = None).
Proof.
  simpl. split; [done|]. split; [|split].
  - by intros s -> ->.
  - intros Hfalsy. destruct (Radio.ariaLabel props) as [s|]; [|done].
    by rewrite (Hfalsy s eq_refl).
  - by intros -> ->.
Qed.

Lemma label_precedence_witness :
  Radio.aria_labelledby
    (Radio.render Null 0
       (Radio.mkProps false None None (Some "Regular crust") (Some "pizza-crust") None))
    = None
  ∧ Radio.aria_labelledby
      (Radio.render Null 0 (Radio.mkProps false None None None (Some "pizza-crust") None))
      = Some "pizza-crust".
Proof.
  split.
  - apply (proj1 (proj2 (label_precedence Null 0
             (Radio.mkProps false None None (Some "Regular crust") (Some "pizza-crust") None)))
             "Regular crust"); reflexivity.
  - apply (proj1 (proj2 (proj2 (label_precedence Null 0
             (Radio.mkProps false None None None (Some "pizza-crust") None))))).
    intros s Hs. discriminate Hs.
Defined.

(** ** Keyboard navigation *)

Lemma handleKeyDown_navigation (group : RadioGroup.RadioGroupProps)
    (h : RadioGroup.Hooks) (index : Z) (props : Radio.RadioProps) (k : Key)
    (t : Z) (w : World) :
  useDescendantKeyDown Radio.filter (RadioGroup.descendants h)
    (RadioGroup.selectedIndex group h) k = Some t →
  Radio.handleKeyDown group h index props k w =
    RadioGroup.onSelect group h
      (Radio.callback_index
         (Radio.isInitial (RadioGroup.selectedIndex group h) index props) t) w.
Proof.
  intros Ht. unfold Radio.handleKeyDown, Radio.descendantKeyDown, Radio.keyDown_request.
  destruct k; try discriminate Ht; by rewrite Ht.
Qed.

(** C3. Three enabled Members and a disabled fourth, nothing selected, so
    that the first Member is the initial one. The End key on it has the
    third Member, ordinal 2, as target, and the callback's [index + 1] makes
    it [onSelect(3)]: the disabled fourth Member is selected and focused,
    not the Member right after the initial one, ordinal 1. *)
Theorem navigation_from_initial_not_second :
  let h := RadioGroup.mount Examples.uncontrolled Examples.tail_greyed in
  Radio.isInitial (RadioGroup.selectedIndex Examples.uncontrolled h) 0 Examples.plain = true
  ∧ useDescendantKeyDown Radio.filter (RadioGroup.descendants h)
      (RadioGroup.selectedIndex Examples.uncontrolled h) KeyEnd = Some 2
  ∧ js_nth (RadioGroup.descendants h) 3 = Some (mkDescendant (Some 13%nat) 3 true)
  ∧ Radio.keyDown Examples.uncontrolled h 0 Examples.plain KeyEnd Examples.page
      = Returns (RadioGroup.setInternalSelectedIndex (Num 3) h,
                 mkWorld (Some 13%nat) [3] [])
  ∧ ∃ h' w',
      Radio.keyDown Examples.uncontrolled h 0 Examples.plain KeyEnd Examples.page
        = Returns (h', w')
      ∧ RadioGroup.selectedIndex Examples.uncontrolled h' = Num 3
      ∧ RadioGroup.selectedIndex Examples.uncontrolled h' ≠ Num 1.
Proof. repeat split. eexists _, _. repeat split. discriminate. Qed.

(** Where the ordinal of the call comes from: with target ordinal [t], the
    key handler calls [onSelect(t + 1)] on the initial Member and
    [onSelect(t)] on any other; [t + 1] is the ordinal after the initial
    Member only when the target is that Member itself. *)
Lemma navigation_selects (group : RadioGroup.RadioGroupProps)
    (h : RadioGroup.Hooks) (index : Z) (props : Radio.RadioProps) (k : Key)
    (t : Z) (w : World) :
  useDescendantKeyDown Radio.filter (RadioGroup.descendants h)
    (RadioGroup.selectedIndex group h) k = Some t →
  let initial := Radio.isInitial (RadioGroup.selectedIndex group h) index props in
  (initial = true →
     Radio.handleKeyDown group h index props k w =
       RadioGroup.onSelect group h (t + 1) w
     ∧ (t = index → t + 1 = 1))
  ∧ (initial = false →
       Radio.handleKeyDown group h index props k w = RadioGroup.onSelect group h t w).
Proof.
  intros Ht initial. rewrite (handleKeyDown_navigation _ _ _ _ _ _ _ Ht).
  fold initial. split; intros Hi; rewrite Hi; [|done].
  split; [done|]. intros ->. apply isInitial_spec in Hi. lia.
Qed.

Lemma filter_elem_of {A : Type} (f : A → bool) (xs : list A) (x : A) :
  x ∈ List.filter f xs ↔ x ∈ xs ∧ f x = true.
Proof. rewrite !list_elem_of_In. apply filter_In. Qed.

Lemma js_nth_elem_of {A : Type} (xs : list A) (i : Z) (x : A) :
  js_nth xs i = Some x → x ∈ xs.
Proof.
  intros [_ Hx]%js_nth_Some. apply list_elem_of_lookup. by exists (Z.to_nat i).
Qed.

Lemma js_nth_last {A : Type} (xs : list A) :
  js_nth xs (Z.of_nat (length xs) - 1) = last xs.
Proof.
  rewrite last_lookup. destruct xs as [|x xs]; [done|].
  replace (Z.of_nat (length (x :: xs)) - 1) with (Z.of_nat (length xs))
    by (simpl; lia).
  by rewrite js_nth_of_nat.
Qed.

Lemma findIndex_snoc_fresh {A : Type} (p : A → bool) (xs : list A) (l : A) :
  (∀ x, x ∈ xs → p x = false) → p l = true →
  findIndex p (xs ++ [l]) = Z.of_nat (length xs).
Proof.
  intros Hfresh Hl. induction xs as [|x xs IH]; simpl.
  - by rewrite Hl.
  - rewrite (Hfresh x) by left.
    rewrite IH by (intros y Hy; apply Hfresh; by right).
    rewrite bool_decide_eq_false_2 by lia. lia.
Qed.

Lemma target_elem_of (f : Descendant → bool) (descs : list Descendant)
    (cur : JsIndex) (m : Move) (d : Descendant) :
  target f descs cur m = Some d → d ∈ List.filter f descs.
Proof.
  unfold target. destruct m; repeat case_bool_decide;
    first [apply js_nth_elem_of | intros Hd; apply list_elem_of_lookup; by exists 0%nat].
Qed.

Lemma ordinals_ok_lookup (descs : list Descendant) (d : Descendant) :
  ordinals_ok descs → d ∈ descs → js_nth descs (index d) = Some d.
Proof.
  intros Hok [i Hi]%list_elem_of_lookup.
  by rewrite (Hok i d Hi), js_nth_of_nat.
Qed.

Lemma ordinals_ok_NoDup (descs : list Descendant) :
  ordinals_ok descs → NoDup (index <$> descs).
Proof.
  intros Hok. apply NoDup_alt. intros i j x.
  rewrite !list_lookup_fmap.
  destruct (descs !! i) as [d|] eqn:Hd; [|done].
  destruct (descs !! j) as [d'|] eqn:Hd'; [|done].
  simpl. intros [= <-] [= Heq].
  rewrite (Hok i d Hd), (Hok j d' Hd') in Heq. lia.
Qed.

Lemma NoDup_fmap_filter {A B : Type} (g : A → B) (f : A → bool) (xs : list A) :
  NoDup (g <$> xs) → NoDup (g <$> List.filter f xs).
Proof.
  induction xs as [|x xs IH]; [done|].
  rewrite fmap_cons, NoDup_cons. intros [Hx Hnd]. simpl.
  destruct (f x); [|by apply IH].
  rewrite fmap_cons, NoDup_cons. split; [|by apply IH].
  intros (y & Hy & Hin%filter_elem_of)%list_elem_of_fmap.
  apply Hx, list_elem_of_fmap. exists y. by destruct Hin.
Qed.

Lemma findIndex_last (sel : list Descendant) (l : Descendant) :
  NoDup (index <$> sel) → last sel = Some l →
  findIndex (λ d, strict_eq (index d) (Num (index l))) sel =
    Z.of_nat (length sel) - 1.
Proof.
  intros Hnd [sel' ->]%last_Some.
  rewrite findIndex_snoc_fresh.
  - rewrite length_app. simpl. lia.
  - intros x Hx. simpl. apply bool_decide_eq_false_2. intros Heq.
    rewrite fmap_app in Hnd. apply NoDup_app in Hnd as (_ & Hdisj & _).
    apply (Hdisj (index x)).
    + apply list_elem_of_fmap. by exists x.
    + rewrite Heq. simpl. left.
  - simpl. by apply bool_decide_eq_true_2.
Qed.

Lemma target_next_from_last (f : Descendant → bool) (descs : list Descendant)
    (l : Descendant) :
  ordinals_ok descs → last (List.filter f descs) = Some l →
  target f descs (Num (index l)) Next = head (List.filter f descs).
Proof.
  intros Hok Hl. unfold target.
  rewrite (findIndex_last _ l) by (done || by apply NoDup_fmap_filter, ordinals_ok_NoDup).
  rewrite bool_decide_eq_true_2 by done. by rewrite head_lookup.
Qed.

Lemma target_previous_from_first (f : Descendant → bool) (descs : list Descendant)
    (d : Descendant) :
  head (List.filter f descs) = Some d →
  target f descs (Num (index d)) Previous = last (List.filter f descs).
Proof.
  intros Hd. unfold target.
  destruct (List.filter f descs) as [|x sel] eqn:Hsel; [done|].
  injection Hd as ->. cbn [findIndex strict_eq].
  rewrite (bool_decide_eq_true_2 (index d = index d)) by done.
  rewrite bool_decide_eq_true_2 by done. apply js_nth_last.
Qed.

Lemma register_ordinals_ok (members : list (option Element * bool)) :
  ordinals_ok (register members).
Proof.
  intros i d. unfold register. rewrite list_lookup_imap.
  destruct (members !! i); [|done]. by intros [= <-].
Qed.

Lemma registered_ordinals_ok (members : list (Element * Radio.RadioProps)) :
  ordinals_ok (Radio.registered members).
Proof. apply register_ordinals_ok. Qed.

Lemma isInitial_selected (n : Z) (index : Z) (props : Radio.RadioProps) :
  Radio.isInitial (Num n) index props = false.
Proof. reflexivity. Qed.

(** The path with a selection. Over a registry with contiguous ordinals the
    target of keyboard navigation is a Member that is not disabled; and with
    the last enabled Member selected a "next" key selects the first enabled
    Member, with the first enabled one selected a "previous" key selects the
    last enabled one. Nothing is said here about a Group without a
    selection, where the initial Member adds one to the target. *)
Lemma navigation_skips_disabled_and_wraps (group : RadioGroup.RadioGroupProps)
    (h : RadioGroup.Hooks) (index : Z) (props : Radio.RadioProps) (w : World) :
  let descs := RadioGroup.descendants h in
  let enabled := List.filter Radio.filter descs in
  ordinals_ok descs →
  (∀ cur m d, target Radio.filter descs cur m = Some d →
     Descendants.disabled d = false ∧ js_nth descs (Descendants.index d) = Some d)
  ∧ (∀ d l, head enabled = Some d → last enabled = Some l →
       js_nth descs (Descendants.index d) = Some d
       ∧ js_nth descs (Descendants.index l) = Some l
       ∧ (RadioGroup.selectedIndex group h = Num (Descendants.index l) →
          ∀ k, move_of_key k = Some Next →
            Radio.handleKeyDown group h index props k w =
              RadioGroup.onSelect group h (Descendants.index d) w)
       ∧ (RadioGroup.selectedIndex group h = Num (Descendants.index d) →
          ∀ k, move_of_key k = Some Previous →
            Radio.handleKeyDown group h index props k w =
              RadioGroup.onSelect group h (Descendants.index l) w)).
Proof.
  intros descs enabled Hok.
  assert (Hmember : ∀ d, d ∈ enabled →
    Descendants.disabled d = false ∧ js_nth descs (Descendants.index d) = Some d).
  { intros d [Hin Hf]%filter_elem_of. split.
    - by apply negb_true_iff in Hf.
    - by apply ordinals_ok_lookup. }
  split.
  - intros cur m d Hd. by apply Hmember, (target_elem_of _ _ cur m).
  - intros d l Hd Hl.
    assert (d ∈ enabled) as Hdin.
    { rewrite head_lookup in Hd. apply list_elem_of_lookup. by exists 0%nat. }
    assert (l ∈ enabled) as Hlin by by apply last_Some_elem_of.
    split; [by apply Hmember|]. split; [by apply Hmember|].
    split; intros Hsel k Hk.
    + rewrite (handleKeyDown_navigation _ _ _ _ _ (Descendants.index d)).
      * by rewrite Hsel.
      * unfold useDescendantKeyDown. rewrite Hk, Hsel. unfold mbind, option_bind.
        subst enabled descs.
        by rewrite (target_next_from_last _ _ _ Hok Hl), Hd.
    + rewrite (handleKeyDown_navigation _ _ _ _ _ (Descendants.index l)).
      * by rewrite Hsel.
      * unfold useDescendantKeyDown. rewrite Hk, Hsel. unfold mbind, option_bind.
        subst enabled descs.
        by rewrite (target_previous_from_first _ _ _ Hd), Hl.
Qed.

Lemma navigation_skips_disabled_and_wraps_witness :
  Radio.handleKeyDown Examples.uncontrolled
    (RadioGroup.setInternalSelectedIndex (Num 2)
       (RadioGroup.mount Examples.uncontrolled Examples.mixed)) 2 Examples.plain
    ArrowDown Examples.page
  = RadioGroup.onSelect Examples.uncontrolled
      (RadioGroup.setInternalSelectedIndex (Num 2)
         (RadioGroup.mount Examples.uncontrolled Examples.mixed)) 0 Examples.page.
Proof.
  destruct (navigation_skips_disabled_and_wraps Examples.uncontrolled
              (RadioGroup.setInternalSelectedIndex (Num 2)
                 (RadioGroup.mount Examples.uncontrolled Examples.mixed))
              2 Examples.plain Examples.page
              (registered_ordinals_ok
                 [(10%nat, Examples.plain); (11%nat, Examples.greyed);
                  (12%nat, Examples.plain); (13%nat, Examples.greyed)]))
    as [_ Hwrap].
  destruct (Hwrap (mkDescendant (Some 10%nat) 0 false)
              (mkDescendant (Some 12%nat) 2 false) eq_refl eq_refl)
    as (_ & _ & Hnext & _).
  exact (Hnext eq_refl ArrowDown eq_refl).
Defined.

(** Members A (enabled), B (disabled), C (enabled): "next" from A lands on
    C, and "next" from C wraps to A. *)
Example next_skips_disabled :
  let abc := Radio.registered
               [(1%nat, Examples.plain); (2%nat, Examples.greyed); (3%nat, Examples.plain)] in
  useDescendantKeyDown Radio.filter abc (Num 0) ArrowDown = Some 2
  ∧ useDescendantKeyDown Radio.filter abc (Num 2) ArrowRight = Some 0
  ∧ useDescendantKeyDown Radio.filter abc (Num 0) ArrowUp = Some 2.
Proof. repeat split. Qed.

(** C5. Members A (enabled), B (disabled), C (enabled), nothing selected.
    On A, the initial Member, the target of "next", of "previous" and of
    "first" is A itself, and the callback's [index + 1] makes each of them
    [onSelect(1)]: the disabled Member B is selected and focused. *)
Theorem navigation_from_initial_lands_on_disabled :
  let abc := Radio.registered
               [(1%nat, Examples.plain); (2%nat, Examples.greyed); (3%nat, Examples.plain)] in
  let h := RadioGroup.mount Examples.uncontrolled abc in
  let on_b := Returns (RadioGroup.setInternalSelectedIndex (Num 1) h,
                       mkWorld (Some 2%nat) [1] []) in
  RadioGroup.selectedIndex Examples.uncontrolled h = Null
  ∧ js_nth (RadioGroup.descendants h) 1 = Some (mkDescendant (Some 2%nat) 1 true)
  ∧ Radio.filter (mkDescendant (Some 2%nat) 1 true) = false
  ∧ useDescendantKeyDown Radio.filter (RadioGroup.descendants h) Null Home = Some 0
  ∧ Radio.keyDown Examples.uncontrolled h 0 Examples.plain Home Examples.page = on_b
  ∧ Radio.keyDown Examples.uncontrolled h 0 Examples.plain ArrowDown Examples.page = on_b
  ∧ Radio.keyDown Examples.uncontrolled h 0 Examples.plain ArrowRight Examples.page = on_b
  ∧ Radio.keyDown Examples.uncontrolled h 0 Examples.plain ArrowUp Examples.page = on_b
  ∧ RadioGroup.selectedIndex Examples.uncontrolled
      (RadioGroup.setInternalSelectedIndex (Num 1) h) = Num 1.
Proof. repeat split; reflexivity. Qed.

(** * Further properties *)

(** ** What a selection touches *)

Lemma onSelect_controlled (props : RadioGroup.RadioGroupProps)
    (h : RadioGroup.Hooks) (i : Z) (w : World) :
  RadioGroup.isControlled h = true →
  fst (reached (RadioGroup.onSelect props h i w)) = h.
Proof.
  intros Hc. unfold RadioGroup.onSelect. rewrite Hc.
  by destruct (js_nth _ _).
Qed.

Lemma onSelect_hooks (props : RadioGroup.RadioGroupProps)
    (h : RadioGroup.Hooks) (i : Z) (w : World) :
  let h' := fst (reached (RadioGroup.onSelect props h i w)) in
  h' = h
  ∨ (h' = RadioGroup.setInternalSelectedIndex (Num i) h
     ∧ RadioGroup.isControlled h = false
     ∧ 0 ≤ i < Z.of_nat (length (RadioGroup.descendants h))).
Proof.
  unfold RadioGroup.onSelect.
  destruct (js_nth _ _) as [d|] eqn:Hd; [|by left].
  destruct (RadioGroup.isControlled h) eqn:Hc; [by left|]. right. simpl.
  split; [done|]. split; [done|].
  destruct (decide (0 ≤ i < Z.of_nat (length (RadioGroup.descendants h))))
    as [|Hout]; [done|].
  assert (js_nth (RadioGroup.descendants h) i = None) as Hnone
    by (apply js_nth_out_of_range; lia).
  congruence.
Qed.

Lemma onSelect_world (props : RadioGroup.RadioGroupProps)
    (h : RadioGroup.Hooks) (i : Z) (w : World) :
  let w' := snd (reached (RadioGroup.onSelect props h i w)) in
  console w' = console w
  ∧ changes w' = (if RadioGroup.onChange props then changes w ++ [i] else changes w)
  ∧ (focused w' = focused w
     ∨ ∃ d, d ∈ RadioGroup.descendants h ∧ focused w' = element d).
Proof.
  unfold RadioGroup.onSelect.
  destruct (js_nth _ _) as [d|] eqn:Hd; simpl.
  - destruct (element d) as [e|] eqn:He;
      destruct (RadioGroup.onChange props); simpl;
      repeat split; try done; try (by left);
      right; exists d; (split; [by eapply js_nth_elem_of|done]).
  - destruct (RadioGroup.onChange props); simpl; repeat split; by left.
Qed.

(** A key press is at most one selection: nothing, or [onSelect] once. *)
Lemma handleKeyDown_cases (group : RadioGroup.RadioGroupProps)
    (h : RadioGroup.Hooks) (index : Z) (props : Radio.RadioProps) (k : Key)
    (w : World) :
  Radio.handleKeyDown group h index props k w = Returns (h, w)
  ∨ ∃ i, Radio.handleKeyDown group h index props k w =
           RadioGroup.onSelect group h i w.
Proof.
  unfold Radio.handleKeyDown, Radio.descendantKeyDown.
  destruct k;
    try (destruct (Radio.keyDown_request group h index props _) as [i|];
         [right; by exists i|by left]).
  destruct (negb _); [|by left]. right. exists index.
  by destruct (RadioGroup.onSelect group h index w) as [[h' w']|e a].
Qed.

(** X1. Whatever a click or a key press on a Member does, it leaves the
    registry, the control mode and the developer console as they were, and
    it invokes the caller's [onChange] at most once. *)
Theorem event_frame (group : RadioGroup.RadioGroupProps) (h : RadioGroup.Hooks)
    (index : Z) (props : Radio.RadioProps) (k : Key) (w : World) :
  let after_click := reached (Radio.handleClick group h index w) in
  let after_key := reached (Radio.handleKeyDown group h index props k w) in
  RadioGroup.descendants (fst after_click) = RadioGroup.descendants h
  ∧ RadioGroup.descendants (fst after_key) = RadioGroup.descendants h
  ∧ RadioGroup.isControlled (fst after_click) = RadioGroup.isControlled h
  ∧ RadioGroup.isControlled (fst after_key) = RadioGroup.isControlled h
  ∧ console (snd after_click) = console w
  ∧ console (snd after_key) = console w
  ∧ (∃ l, changes (snd after_click) = changes w ++ l ∧ (length l ≤ 1)%nat)
  ∧ (∃ l, changes (snd after_key) = changes w ++ l ∧ (length l ≤ 1)%nat).
Proof.
  assert (Hsel : ∀ i,
    let after := reached (RadioGroup.onSelect group h i w) in
    RadioGroup.descendants (fst after) = RadioGroup.descendants h
    ∧ RadioGroup.isControlled (fst after) = RadioGroup.isControlled h
    ∧ console (snd after) = console w
    ∧ ∃ l, changes (snd after) = changes w ++ l ∧ (length l ≤ 1)%nat).
  { intros i after. subst after.
    destruct (onSelect_world group h i w) as (Hcon & Hch & _).
    split; [|split; [apply onSelect_isControlled|split; [done|]]].
    - by destruct (onSelect_hooks group h i w) as [->|[-> _]].
    - rewrite Hch. destruct (RadioGroup.onChange group).
      + exists [i]. split; [done|simpl; lia].
      + exists []. split; [by rewrite app_nil_r|simpl; lia]. }
  assert (Hkey :
    let after := reached (Radio.handleKeyDown group h index props k w) in
    RadioGroup.descendants (fst after) = RadioGroup.descendants h
    ∧ RadioGroup.isControlled (fst after) = RadioGroup.isControlled h
    ∧ console (snd after) = console w
    ∧ ∃ l, changes (snd after) = changes w ++ l ∧ (length l ≤ 1)%nat).
  { destruct (handleKeyDown_cases group h index props k w) as [->|[i ->]].
    - simpl. repeat split. exists []. split; [by rewrite app_nil_r|simpl; lia].
    - apply Hsel. }
  intros after_click after_key.
  destruct (Hsel index) as (? & ? & ? & ?). destruct Hkey as (? & ? & ? & ?).
  done.
Qed.

(** X2. In a controlled Group, also one whose [index] is [null], no click
    and no key press changes the hooks: the selection a later render shows
    depends on the [index] prop alone. *)
Theorem controlled_events_keep_hooks (group : RadioGroup.RadioGroupProps)
    (h : RadioGroup.Hooks) (index : Z) (props : Radio.RadioProps) (k : Key)
    (w : World) :
  RadioGroup.isControlled h = true →
  fst (reached (Radio.click group h index props w)) = h
  ∧ fst (reached (Radio.keyDown group h index props k w)) = h
  ∧ ∀ group', RadioGroup.selectedIndex group'
                (fst (reached (Radio.keyDown group h index props k w)))
              = RadioGroup.index group'.
Proof.
  intros Hc.
  assert (fst (reached (Radio.keyDown group h index props k w)) = h) as Hkey.
  { unfold Radio.keyDown, Utils.wrapEvent.
    destruct (handleKeyDown_cases group h index props k
                (default id (Radio.onKeyDown props) w)) as [->|[i ->]];
      [done|by apply onSelect_controlled]. }
  split; [by apply onSelect_controlled|]. split; [done|].
  intros group'. rewrite Hkey. unfold RadioGroup.selectedIndex. by rewrite Hc.
Qed.

Lemma controlled_events_keep_hooks_witness :
  fst (reached (Radio.click (RadioGroup.mkProps Null Undefined true)
                  (RadioGroup.mount (RadioGroup.mkProps Null Undefined true)
                     Examples.crusts) 1 Examples.plain Examples.page))
  = RadioGroup.mount (RadioGroup.mkProps Null Undefined true) Examples.crusts.
Proof.
  apply (controlled_events_keep_hooks (RadioGroup.mkProps Null Undefined true)
           (RadioGroup.mount (RadioGroup.mkProps Null Undefined true) Examples.crusts)
           1 Examples.plain ArrowDown Examples.page).
  reflexivity.
Defined.

(** X3. As long as the membership is not replaced, the stored selection of
    a Group is what the first render put there or the ordinal of a
    registered Member of an uncontrolled Group: selections never store an
    ordinal outside the membership. *)
Theorem stored_selection_in_range (props : RadioGroup.RadioGroupProps)
    (descs : list Descendant) (us : list RadioGroup.Update) :
  Forall (λ u, ∃ p i w, u = RadioGroup.Select p i w) us →
  let h := RadioGroup.lifetime props descs us in
  RadioGroup.descendants h = descs
  ∧ (RadioGroup.internalSelectedIndex h =
       RadioGroup.internalSelectedIndex (RadioGroup.mount props descs)
     ∨ ∃ i, RadioGroup.internalSelectedIndex h = Num i
            ∧ 0 ≤ i < Z.of_nat (length descs)
            ∧ RadioGroup.wasControlled props = false).
Proof.
  induction us as [|u us IH] using rev_ind; intros Hsel h.
  - split; [done|by left].
  - rewrite Forall_app, Forall_singleton in Hsel.
    destruct Hsel as [Hus (p & i & w & ->)].
    specialize (IH Hus). cbv zeta in IH. destruct IH as [Hdescs Hint].
    subst h. rewrite lifetime_snoc. simpl.
    destruct (onSelect_hooks p (RadioGroup.lifetime props descs us) i w)
      as [->|(-> & Hc & Hrange)]; [done|].
    simpl. split; [done|]. right. exists i. split; [done|].
    rewrite Hdescs in Hrange. split; [done|].
    by rewrite <- (lifetime_isControlled props descs us).
Qed.

Lemma stored_selection_in_range_witness :
  RadioGroup.descendants
    (RadioGroup.lifetime Examples.uncontrolled Examples.crusts
       [RadioGroup.Select Examples.uncontrolled 2 Examples.page;
        RadioGroup.Select Examples.uncontrolled 7 Examples.page])
  = Examples.crusts
  ∧ (RadioGroup.internalSelectedIndex
       (RadioGroup.lifetime Examples.uncontrolled Examples.crusts
          [RadioGroup.Select Examples.uncontrolled 2 Examples.page;
           RadioGroup.Select Examples.uncontrolled 7 Examples.page])
     = RadioGroup.internalSelectedIndex
         (RadioGroup.mount Examples.uncontrolled Examples.crusts)
     ∨ ∃ i, RadioGroup.internalSelectedIndex
              (RadioGroup.lifetime Examples.uncontrolled Examples.crusts
                 [RadioGroup.Select Examples.uncontrolled 2 Examples.page;
                  RadioGroup.Select Examples.uncontrolled 7 Examples.page])
            = Num i
            ∧ 0 ≤ i < Z.of_nat (length Examples.crusts)
            ∧ RadioGroup.wasControlled Examples.uncontrolled = false).
Proof.
  apply (stored_selection_in_range Examples.uncontrolled Examples.crusts
           [RadioGroup.Select Examples.uncontrolled 2 Examples.page;
            RadioGroup.Select Examples.uncontrolled 7 Examples.page]).
  repeat constructor; by eexists _, _, _.
Defined.

(** ** The roving tab stop *)

Lemma tabIndex_render (selectedIndex : JsIndex) (index : Z)
    (props : Radio.RadioProps) :
  Radio.tabIndex (Radio.render selectedIndex index props) =
    if Radio.isInitial selectedIndex index props
       || Radio.isSelected selectedIndex index then 0 else -1.
Proof.
  simpl. unfold Radio.isSelected.
  by destruct (Radio.isInitial _ _ _), (strict_eq _ _).
Qed.

Lemma tab_stop_iff (selectedIndex : JsIndex) (index : Z) (props : Radio.RadioProps) :
  Radio.tabIndex (Radio.render selectedIndex index props) = 0
  ↔ selectedIndex = Num index
    ∨ (selectedIndex = Null ∧ index = 0 ∧ Radio.disabled props = false).
Proof.
  rewrite tabIndex_render, <- isSelected_spec, <- isInitial_spec.
  destruct (Radio.isInitial _ _ _), (Radio.isSelected _ _); simpl;
    intuition congruence.
Qed.

(** X4. After a click on a registered Member of an uncontrolled Group, the
    next render shows that Member, and no other, as checked, and that
    Member, and no other, as the tab stop. *)
Theorem click_then_render (group : RadioGroup.RadioGroupProps)
    (h : RadioGroup.Hooks) (index : Z) (w : World)
    (members : list Radio.RadioProps) :
  RadioGroup.isControlled h = false →
  0 ≤ index < Z.of_nat (length (RadioGroup.descendants h)) →
  ∃ h' w',
    Radio.handleClick group h index w = Returns (h', w')
    ∧ ∀ (j : nat) a,
        Radio.render_all (RadioGroup.selectedIndex group h') members !! j = Some a →
        (Radio.aria_checked a = true ↔ Z.of_nat j = index)
        ∧ (Radio.tabIndex a = 0 ↔ Z.of_nat j = index).
Proof.
  intros Hc Hrange. destruct (js_nth_in_range _ _ Hrange) as [d Hd].
  eexists _, _. split; [by apply onSelect_returns with (d := d)|].
  rewrite Hc. unfold RadioGroup.selectedIndex. simpl. rewrite Hc.
  intros j a. rewrite render_all_lookup.
  destruct (members !! j) as [p|]; [|done]. intros [= <-]. split.
  - cbn [Radio.aria_checked Radio.render]. rewrite isSelected_spec.
    split; [by intros [= ->]|by intros ->].
  - rewrite tab_stop_iff. split; [|intros ->; by left].
    intros [Hnum|[Hnull _]]; [by injection Hnum as ->|discriminate Hnull].
Qed.

Lemma click_then_render_witness :
  ∃ h' w',
    Radio.handleClick Examples.uncontrolled
      (RadioGroup.mount Examples.uncontrolled Examples.crusts) 2 Examples.page
      = Returns (h', w')
    ∧ ∀ (j : nat) a,
        Radio.render_all (RadioGroup.selectedIndex Examples.uncontrolled h')
          [Examples.plain; Examples.plain; Examples.plain] !! j = Some a →
        (Radio.aria_checked a = true ↔ Z.of_nat j = 2)
        ∧ (Radio.tabIndex a = 0 ↔ Z.of_nat j = 2).
Proof.
  apply (click_then_render Examples.uncontrolled
           (RadioGroup.mount Examples.uncontrolled Examples.crusts) 2 Examples.page
           [Examples.plain; Examples.plain; Examples.plain]).
  - reflexivity.
  - cbn. lia.
Defined.

(** X5. The space key on a Member that is not selected does what a click
    does. On the selected Member it does nothing at all, whereas a click
    there invokes [onChange] once more and leaves the hooks as they are. *)
Theorem space_and_click (group : RadioGroup.RadioGroupProps)
    (h : RadioGroup.Hooks) (index : Z) (props : Radio.RadioProps) (w : World) :
  (Radio.isSelected (RadioGroup.selectedIndex group h) index = false →
     Radio.handleKeyDown group h index props Space w =
       Radio.handleClick group h index w)
  ∧ (Radio.isSelected (RadioGroup.selectedIndex group h) index = true →
       Radio.handleKeyDown group h index props Space w = Returns (h, w)
       ∧ (is_Some (js_nth (RadioGroup.descendants h) index) →
          ∃ w', Radio.handleClick group h index w = Returns (h, w')
                ∧ changes w' =
                    (if RadioGroup.onChange group then changes w ++ [index]
                     else changes w))).
Proof.
  unfold Radio.handleKeyDown, Radio.handleClick. split; intros Hsel; rewrite Hsel.
  - simpl. by destruct (RadioGroup.onSelect group h index w) as [[h' w']|e a].
  - split; [done|]. intros [d Hd].
    rewrite (onSelect_returns _ _ _ _ _ Hd).
    apply isSelected_spec in Hsel. unfold RadioGroup.selectedIndex in Hsel.
    eexists. split.
    + f_equal. f_equal. destruct h as [[] descs internal]; simpl in *; [done|].
      by rewrite Hsel.
    + simpl. by destruct (RadioGroup.onChange group), (element d).
Qed.

Lemma space_and_click_witness :
  Radio.handleKeyDown Examples.uncontrolled
    (RadioGroup.setInternalSelectedIndex (Num 1)
       (RadioGroup.mount Examples.uncontrolled Examples.crusts))
    1 Examples.plain Space Examples.page
  = Returns (RadioGroup.setInternalSelectedIndex (Num 1)
               (RadioGroup.mount Examples.uncontrolled Examples.crusts),
             Examples.page)
  ∧ Radio.handleKeyDown Examples.uncontrolled
      (RadioGroup.mount Examples.uncontrolled Examples.crusts)
      1 Examples.plain Space Examples.page
    = Radio.handleClick Examples.uncontrolled
        (RadioGroup.mount Examples.uncontrolled Examples.crusts) 1 Examples.page.
Proof.
  split.
  - apply (space_and_click Examples.uncontrolled
             (RadioGroup.setInternalSelectedIndex (Num 1)
                (RadioGroup.mount Examples.uncontrolled Examples.crusts))
             1 Examples.plain Examples.page). reflexivity.
  - apply (space_and_click Examples.uncontrolled
             (RadioGroup.mount Examples.uncontrolled Examples.crusts)
             1 Examples.plain Examples.page). reflexivity.
Defined.

(** X6. Whatever [selectedIndex] is, two Members of a rendered Group that
    both have [tabIndex] 0 are one Member, and a checked Member is the tab
    stop. *)
Theorem tab_stop_unique (selectedIndex : JsIndex)
    (members : list Radio.RadioProps) (i j : nat) (a b : Radio.Attributes) :
  Radio.render_all selectedIndex members !! i = Some a →
  Radio.render_all selectedIndex members !! j = Some b →
  (Radio.tabIndex a = 0 → Radio.tabIndex b = 0 → i = j)
  ∧ (Radio.aria_checked a = true → Radio.tabIndex a = 0).
Proof.
  rewrite !render_all_lookup.
  destruct (members !! i) as [p|]; [|done]. destruct (members !! j) as [q|]; [|done].
  intros [= <-] [= <-]. split.
  - rewrite !tab_stop_iff.
    intros [->|(-> & Hi & _)] [Hj|(Hj & Hj0 & _)]; try discriminate; [|lia].
    injection Hj as Hj. lia.
  - cbn [Radio.aria_checked Radio.render]. rewrite isSelected_spec, tab_stop_iff.
    by left.
Qed.

Lemma tab_stop_unique_witness :
  (Radio.tabIndex (Radio.render (Num 2) 2 Examples.plain) = 0 →
   Radio.tabIndex (Radio.render (Num 2) 2 Examples.plain) = 0 → 2%nat = 2%nat)
  ∧ (Radio.aria_checked (Radio.render (Num 2) 2 Examples.plain) = true →
     Radio.tabIndex (Radio.render (Num 2) 2 Examples.plain) = 0).
Proof.
  apply (tab_stop_unique (Num 2) [Examples.plain; Examples.greyed; Examples.plain]
           2 2); reflexivity.
Defined.

(** X7. A rendered Group has a tab stop exactly if [selectedIndex] is the
    ordinal of one of its Members, or is [null] while the first Member is
    not disabled. With [undefined], with an ordinal outside the membership,
    or with [null] and a disabled first Member, no Member can be reached
    with the Tab key. A Member is checked exactly in the first case. *)
Theorem tab_stop_exists (selectedIndex : JsIndex)
    (members : list Radio.RadioProps) :
  ((∃ (j : nat) a, Radio.render_all selectedIndex members !! j = Some a
                   ∧ Radio.tabIndex a = 0)
   ↔ (∃ n : nat, selectedIndex = Num (Z.of_nat n) ∧ (n < length members)%nat)
     ∨ (selectedIndex = Null
        ∧ ∃ p, members !! 0%nat = Some p ∧ Radio.disabled p = false))
  ∧ ((∃ (j : nat) a, Radio.render_all selectedIndex members !! j = Some a
                     ∧ Radio.aria_checked a = true)
     ↔ ∃ n : nat, selectedIndex = Num (Z.of_nat n) ∧ (n < length members)%nat).
Proof.
  split; split.
  - intros (j & a & Hj & Htab). rewrite render_all_lookup in Hj.
    destruct (members !! j) as [p|] eqn:Hp; [|done]. injection Hj as <-.
    apply tab_stop_iff in Htab as [->|(-> & Hj0 & Hen)].
    + left. exists j. split; [done|]. by eapply lookup_lt_Some.
    + right. split; [done|]. exists p. split; [|done].
      by replace j with 0%nat in Hp by lia.
  - intros [(n & -> & Hn)|(-> & p & Hp & Hen)].
    + destruct (lookup_lt_is_Some_2 members n Hn) as [p Hp].
      exists n, (Radio.render (Num (Z.of_nat n)) (Z.of_nat n) p).
      split; [by rewrite render_all_lookup, Hp|]. apply tab_stop_iff. by left.
    + exists 0%nat, (Radio.render Null 0 p).
      split; [by rewrite render_all_lookup, Hp|]. apply tab_stop_iff. by right.
  - intros (j & a & Hj & Hsel). rewrite render_all_lookup in Hj.
    destruct (members !! j) as [p|] eqn:Hp; [|done]. injection Hj as <-.
    cbn [Radio.aria_checked Radio.render] in Hsel.
    apply isSelected_spec in Hsel as ->.
    exists j. split; [done|]. by eapply lookup_lt_Some.
  - intros (n & -> & Hn).
    destruct (lookup_lt_is_Some_2 members n Hn) as [p Hp].
    exists n, (Radio.render (Num (Z.of_nat n)) (Z.of_nat n) p).
    split; [by rewrite render_all_lookup, Hp|].
    cbn [Radio.aria_checked Radio.render]. by apply isSelected_spec.
Qed.

(** ** The mode warnings *)

(** X8. A render writes at most one mode warning, and only in a
    development build whose [index] prop is defined where the first
    render's was not, or the other way round; a render that agrees with the
    first one writes nothing. The page is otherwise left alone. *)
Theorem mode_warnings_exact (dev : bool) (props : RadioGroup.RadioGroupProps)
    (h : RadioGroup.Hooks) (w : World) :
  RadioGroup.mode_warnings dev props h w =
    (if dev && negb (Bool.eqb (RadioGroup.wasControlled props)
                      (RadioGroup.isControlled h))
     then log_warning
            (if RadioGroup.isControlled h then RadioGroup.controlled_to_uncontrolled
             else RadioGroup.uncontrolled_to_controlled) w
     else w)
  ∧ (console (RadioGroup.mode_warnings dev props h w) = console w
     ↔ dev = false ∨ RadioGroup.wasControlled props = RadioGroup.isControlled h)
  ∧ focused (RadioGroup.mode_warnings dev props h w) = focused w
  ∧ changes (RadioGroup.mode_warnings dev props h w) = changes w.
Proof.
  assert (Hneq : ∀ msg, console (log_warning msg w) ≠ console w).
  { intros msg Heq. simpl in Heq.
    apply (f_equal length) in Heq. rewrite length_app in Heq. simpl in Heq. lia. }
  unfold RadioGroup.mode_warnings, Utils.warning.
  destruct dev, (RadioGroup.wasControlled props), (RadioGroup.isControlled h);
    cbn [negb andb Bool.eqb]; (split; [done|]); (split; [|done]);
    split; try (by intros; (left + right)); try (by intros Heq%Hneq);
    intros [?|?]; done.
Qed.

(** X9. A Group that started controlled and is later rendered without an
    [index] has [selectedIndex] [undefined]: no Member is checked and no
    Member is a tab stop, not even an enabled first one. *)
Theorem dropped_index_leaves_no_tab_stop (props0 : RadioGroup.RadioGroupProps)
    (descs : list Descendant) (us : list RadioGroup.Update)
    (props1 : RadioGroup.RadioGroupProps) (members : list Radio.RadioProps) :
  RadioGroup.wasControlled props0 = true →
  RadioGroup.index props1 = Undefined →
  let h := RadioGroup.lifetime props0 descs us in
  RadioGroup.selectedIndex props1 h = Undefined
  ∧ ∀ (j : nat) a,
      Radio.render_all (RadioGroup.selectedIndex props1 h) members !! j = Some a →
      Radio.tabIndex a = -1 ∧ Radio.aria_checked a = false.
Proof.
  intros Hc Hundef h.
  assert (RadioGroup.selectedIndex props1 h = Undefined) as ->.
  { unfold RadioGroup.selectedIndex. subst h.
    by rewrite lifetime_isControlled, Hc. }
  split; [done|]. intros j a. rewrite render_all_lookup.
  destruct (members !! j) as [p|]; [|done]. by intros [= <-].
Qed.

Lemma dropped_index_leaves_no_tab_stop_witness :
  RadioGroup.selectedIndex Examples.uncontrolled
    (RadioGroup.lifetime (Examples.controlled 1) Examples.crusts []) = Undefined
  ∧ ∀ (j : nat) a,
      Radio.render_all
        (RadioGroup.selectedIndex Examples.uncontrolled
           (RadioGroup.lifetime (Examples.controlled 1) Examples.crusts []))
        [Examples.plain; Examples.plain; Examples.plain] !! j = Some a →
      Radio.tabIndex a = -1 ∧ Radio.aria_checked a = false.
Proof.
  apply (dropped_index_leaves_no_tab_stop (Examples.controlled 1) Examples.crusts []
           Examples.uncontrolled [Examples.plain; Examples.plain; Examples.plain]);
    reflexivity.
Defined.

(** ** The rendered container *)

Lemma lookup_set_attribute_eq (name : string) (value : option string)
    (attrs : gmap string string) :
  GroupView.set_attribute name value attrs !! name = value.
Proof.
  destruct value; simpl; [apply lookup_insert_eq|apply lookup_delete_eq].
Qed.

Lemma lookup_set_attribute_ne (name name' : string) (value : option string)
    (attrs : gmap string string) :
  name ≠ name' →
  GroupView.set_attribute name value attrs !! name' = attrs !! name'.
Proof.
  intros Hne. destruct value; simpl;
    [by apply lookup_insert_ne|by apply lookup_delete_ne].
Qed.

(** X10. Whatever props a [RadioGroup] is given, the rendered container has
    [role="radiogroup"] and the [data-reach-radio-group] marker, so a [role]
    among the props is replaced; [aria-label] and [aria-describedby] are
    rendered as given; and a non-empty [aria-label] is never rendered
    together with an [aria-labelledby]. *)
Theorem container_attributes (props : gmap string string) :
  GroupView.attributes props !! "role" = Some "radiogroup"
  ∧ GroupView.attributes props !! "data-reach-radio-group" = Some EmptyString
  ∧ GroupView.attributes props !! "aria-label" = props !! "aria-label"
  ∧ GroupView.attributes props !! "aria-describedby" = props !! "aria-describedby"
  ∧ (GroupView.attributes props !! "aria-labelledby" = None
     ∨ GroupView.attributes props !! "aria-labelledby" = props !! "aria-labelledby"
       ∧ ∀ s, props !! "aria-label" = Some s → truthy s = false)
  ∧ ¬ (∃ s r, GroupView.attributes props !! "aria-label" = Some s
              ∧ truthy s = true
              ∧ GroupView.attributes props !! "aria-labelledby" = Some r).
Proof.
  assert (Hlabel :
    GroupView.attributes props !! "aria-label" = props !! "aria-label").
  { unfold GroupView.attributes.
    rewrite !lookup_set_attribute_ne by done. apply lookup_set_attribute_eq. }
  assert (Hby :
    GroupView.attributes props !! "aria-labelledby" =
      match props !! "aria-label" with
      | Some s => if truthy s then None else props !! "aria-labelledby"
      | None => props !! "aria-labelledby"
      end).
  { unfold GroupView.attributes.
    rewrite !lookup_set_attribute_ne by done. apply lookup_set_attribute_eq. }
  repeat split.
  - unfold GroupView.attributes.
    rewrite !lookup_set_attribute_ne by done. apply lookup_set_attribute_eq.
  - unfold GroupView.attributes. apply lookup_set_attribute_eq.
  - done.
  - unfold GroupView.attributes.
    rewrite !lookup_set_attribute_ne by done. apply lookup_set_attribute_eq.
  - rewrite Hby. destruct (props !! "aria-label") as [s|]; [|right; by split].
    destruct (truthy s) eqn:Hs; [by left|]. right. split; [done|].
    by intros s' [= <-].
  - intros (s & r & Hs & Ht & Hr). rewrite Hlabel in Hs. rewrite Hby, Hs, Ht in Hr.
    done.
Qed.

(** X11. Every prop that [RadioGroup] neither consumes nor writes itself
    reaches the container unchanged, and the props it consumes for
    selection ([children], [index], [defaultIndex], [onChange]) never
    become attributes. *)
Theorem container_pass_through (props : gmap string string) (name : string) :
  (name ∉ GroupView.own_names →
     GroupView.attributes props !! name = props !! name)
  ∧ (name ∈ ["children"; "index"; "defaultIndex"; "onChange"] →
       GroupView.attributes props !! name = None).
Proof.
  unfold GroupView.attributes, GroupView.rest, GroupView.own_names. split.
  - rewrite !not_elem_of_cons. intros Hne.
    rewrite !lookup_set_attribute_ne by (clear -Hne; intuition congruence).
    rewrite !lookup_delete_ne by (clear -Hne; intuition congruence). done.
  - rewrite !elem_of_cons, elem_of_nil.
    intros [->|[->|[->|[->|[]]]]];
      rewrite !lookup_set_attribute_ne by done;
      repeat first [by apply lookup_delete_eq | rewrite lookup_delete_ne by done].
Qed.

Lemma container_pass_through_witness :
  GroupView.attributes
    {[ "id" := "crust"; "aria-labelledby" := "pizza-crust"; "index" := "1" ]}
    !! "id"
  = Some "crust"
  ∧ GroupView.attributes
      {[ "id" := "crust"; "aria-labelledby" := "pizza-crust"; "index" := "1" ]}
      !! "index"
    = None.
Proof.
  split.
  - etrans.
    + apply (proj1 (container_pass_through
               {[ "id" := "crust"; "aria-labelledby" := "pizza-crust"; "index" := "1" ]}
               "id")).
      unfold GroupView.own_names. rewrite !not_elem_of_cons. repeat split; try done.
      apply not_elem_of_nil.
    + by vm_compute.
  - apply (proj2 (container_pass_through
             {[ "id" := "crust"; "aria-labelledby" := "pizza-crust"; "index" := "1" ]}
             "index")).
    rewrite !elem_of_cons. right. by left.
Defined.

(** ** The validator of [index] *)

Lemma existsb_negb {A : Type} (f : A → bool) (xs : list A) :
  existsb (λ x, negb (f x)) xs = negb (forallb f xs).
Proof.
  induction xs as [|x xs IH]; [done|]. simpl. rewrite IH. by destruct (f x).
Qed.

(** X12. The validator accepts exactly these props: no [index] ([undefined]
    or [null]), whatever else is given; or an [index] that comes with an
    [onChange] or a truthy [readOnly], without a [defaultIndex], and that is
    a number or an array of numbers. *)
Theorem validator_accepts_iff (isNumber : PropTypes.JsValue → bool)
    (props : PropTypes.Props) (compName propName : string) :
  PropTypes.index_validator isNumber props compName propName = None
  ↔ PropTypes.not_nullish (PropTypes.index props) = false
    ∨ ((PropTypes.onChange props = true ∨ PropTypes.readOnly props = true)
       ∧ PropTypes.defaultIndex props = false
       ∧ match PropTypes.index props with
         | PropTypes.VArray items => forallb isNumber items = true
         | v => isNumber v = true
         end).
Proof.
  unfold PropTypes.index_validator.
  destruct props as [val oc ro di]; simpl.
  destruct val as [| |n| |items|type]; simpl;
    try rewrite existsb_negb;
    destruct oc, ro, di; simpl;
    try destruct (forallb isNumber items);
    try destruct (isNumber _); simpl;
    intuition congruence.
Qed.

(** X13. An [index] given together with a [defaultIndex] is always
    rejected, and an [index] given without [onChange] and without
    [readOnly] is reported as such first, whatever its value and whether or
    not a [defaultIndex] is given as well. *)
Theorem validator_usage_errors (isNumber : PropTypes.JsValue → bool)
    (props : PropTypes.Props) (compName propName : string) :
  PropTypes.not_nullish (PropTypes.index props) = true →
  (PropTypes.onChange props = false → PropTypes.readOnly props = false →
     PropTypes.index_validator isNumber props compName propName =
       Some PropTypes.IndexWithoutOnChange)
  ∧ (PropTypes.defaultIndex props = true →
       PropTypes.index_validator isNumber props compName propName =
         Some (if negb (PropTypes.onChange props) && negb (PropTypes.readOnly props)
               then PropTypes.IndexWithoutOnChange
               else PropTypes.IndexWithDefaultIndex)).
Proof.
  intros Hval. unfold PropTypes.index_validator. rewrite Hval. split.
  - by intros -> ->.
  - intros ->. by destruct (PropTypes.onChange props), (PropTypes.readOnly props).
Qed.

Lemma validator_usage_errors_witness :
  PropTypes.index_validator PropTypes.finite_number
    (PropTypes.mkProps (PropTypes.VNumber 1) false false true)
    "RadioGroup" "index"
  = Some PropTypes.IndexWithoutOnChange.
Proof.
  apply (validator_usage_errors PropTypes.finite_number
           (PropTypes.mkProps (PropTypes.VNumber 1) false false true)
           "RadioGroup" "index"); reflexivity.
Defined.

(** X14. When the validator reports an invalid prop, the value is neither
    absent, nor an array, nor a number, and the received type in the message
    is its [typeof]: the message never says "array". An array is rejected
    only as an array with a value that is not a number. *)
Theorem validator_invalid_prop (isNumber : PropTypes.JsValue → bool)
    (props : PropTypes.Props) (compName propName : string)
    (pn cn received : string) :
  PropTypes.index_validator isNumber props compName propName =
    Some (PropTypes.InvalidProp pn cn received) →
  pn = propName ∧ cn = compName
  ∧ received = PropTypes.typeof (PropTypes.index props)
  ∧ PropTypes.isArray (PropTypes.index props) = false
  ∧ PropTypes.not_nullish (PropTypes.index props) = true
  ∧ isNumber (PropTypes.index props) = false.
Proof.
  unfold PropTypes.index_validator.
  destruct props as [val oc ro di]; simpl.
  destruct (PropTypes.not_nullish val && negb oc && negb ro); [done|].
  destruct (PropTypes.not_nullish val && di); [done|].
  destruct val as [| |n| |items|type]; simpl;
    try destruct (existsb _ _); try destruct (isNumber _) eqn:Hn; simpl;
    try done; by intros [= <- <- <-].
Qed.

Lemma validator_invalid_prop_witness :
  "index" = "index" ∧ "RadioGroup" = "RadioGroup"
  ∧ "string" = PropTypes.typeof (PropTypes.VOther "string")
  ∧ PropTypes.isArray (PropTypes.VOther "string") = false
  ∧ PropTypes.not_nullish (PropTypes.VOther "string") = true
  ∧ PropTypes.finite_number (PropTypes.VOther "string") = false.
Proof.
  apply (validator_invalid_prop PropTypes.finite_number
           (PropTypes.mkProps (PropTypes.VOther "string") true false false)
           "RadioGroup" "index" "index" "RadioGroup" "string").
  reflexivity.
Defined.

(** ** Faults and first renders *)

(** X15. A click or a key press moves input focus, if at all, to the
    element of a registered Member; and one that throws has moved no focus
    and changed no hook: at most the caller's [onChange] has been invoked. *)
Theorem event_focus (group : RadioGroup.RadioGroupProps) (h : RadioGroup.Hooks)
    (index : Z) (props : Radio.RadioProps) (k : Key) (w : World)
    (o : Outcome (RadioGroup.Hooks * World)) :
  o = Radio.handleClick group h index w
  ∨ o = Radio.handleKeyDown group h index props k w →
  (focused (snd (reached o)) = focused w
   ∨ ∃ d, d ∈ RadioGroup.descendants h ∧ focused (snd (reached o)) = element d)
  ∧ (returned o = false →
       fst (reached o) = h
       ∧ focused (snd (reached o)) = focused w
       ∧ console (snd (reached o)) = console w).
Proof.
  assert (Hsel : ∀ i,
    let o := RadioGroup.onSelect group h i w in
    (focused (snd (reached o)) = focused w
     ∨ ∃ d, d ∈ RadioGroup.descendants h ∧ focused (snd (reached o)) = element d)
    ∧ (returned o = false →
         fst (reached o) = h
         ∧ focused (snd (reached o)) = focused w
         ∧ console (snd (reached o)) = console w)).
  { intros i o'. subst o'. split; [apply onSelect_world|].
    unfold RadioGroup.onSelect. destruct (js_nth _ _); [done|]. simpl.
    intros _. by destruct (RadioGroup.onChange group). }
  intros [->| ->]; [apply Hsel|].
  destruct (handleKeyDown_cases group h index props k w) as [->|[i ->]];
    [|apply Hsel].
  simpl. split; [by left|done].
Qed.

Lemma event_focus_witness :
  (focused (snd (reached (Radio.handleClick Examples.uncontrolled
                            (RadioGroup.mount Examples.uncontrolled Examples.crusts)
                            5 Examples.page)))
   = focused Examples.page
   ∨ ∃ d, d ∈ RadioGroup.descendants
                (RadioGroup.mount Examples.uncontrolled Examples.crusts)
          ∧ focused (snd (reached (Radio.handleClick Examples.uncontrolled
                                     (RadioGroup.mount Examples.uncontrolled
                                        Examples.crusts) 5 Examples.page)))
            = element d)
  ∧ (returned (Radio.handleClick Examples.uncontrolled
                 (RadioGroup.mount Examples.uncontrolled Examples.crusts)
                 5 Examples.page) = false →
     fst (reached (Radio.handleClick Examples.uncontrolled
                     (RadioGroup.mount Examples.uncontrolled Examples.crusts)
                     5 Examples.page))
     = RadioGroup.mount Examples.uncontrolled Examples.crusts
     ∧ focused (snd (reached (Radio.handleClick Examples.uncontrolled
                                (RadioGroup.mount Examples.uncontrolled Examples.crusts)
                                5 Examples.page)))
       = focused Examples.page
     ∧ console (snd (reached (Radio.handleClick Examples.uncontrolled
                                (RadioGroup.mount Examples.uncontrolled Examples.crusts)
                                5 Examples.page)))
       = console Examples.page).
Proof.
  apply (event_focus Examples.uncontrolled
           (RadioGroup.mount Examples.uncontrolled Examples.crusts)
           5 Examples.plain Space Examples.page).
  by left.
Defined.

(** X16. At the first render an uncontrolled Group shows its
    [defaultIndex], or [null] when there is none, a controlled Group shows
    its [index] and ignores [defaultIndex], and no mode warning is written,
    in any build. *)
Theorem first_render (dev : bool) (props : RadioGroup.RadioGroupProps)
    (descs : list Descendant) (w : World) :
  let h := RadioGroup.mount props descs in
  RadioGroup.selectedIndex props h =
    (match RadioGroup.index props, RadioGroup.defaultIndex props with
     | Undefined, Undefined => Null
     | Undefined, v => v
     | v, _ => v
     end)
  ∧ RadioGroup.mode_warnings dev props h w = w.
Proof.
  split.
  - unfold RadioGroup.selectedIndex, RadioGroup.mount, RadioGroup.wasControlled.
    simpl. by destruct (RadioGroup.index props), (RadioGroup.defaultIndex props).
  - by apply mode_warnings_same_mode.
Qed.
